(** * Vertex numbering of H3 cells (src/v3/h3_vertex.c)

    A shallow embedding of [vertexRotations] and [vertexNumForDirection]
    together with the three constant tables of the file, and the properties
    of the vertex-number specification stated over them.

    Conventions of the embedding:
    - a C [int] is a [Z]; arithmetic whose result leaves the range of [int]
      is undefined, and so is the remainder by zero ([CInt]);
    - a computation that can run into undefined behaviour (a signed
      overflow, an array read out of bounds, a read of the local
      [dirFaces] that no loop iteration assigned) returns [option], with
      [None] for "undefined";
    - the functions of the other translation units (face projection, base
      cell metadata, index accessors) are the fields of the class
      [Collaborators]: this file only calls them. *)

From Stdlib Require Import ZArith NArith List Lia.
From stdpp Require Import base decidable option list numbers.

Local Open Scope Z_scope.

(** ** C integer arithmetic *)

Module CInt.

Definition INT_MIN : Z := -2147483648.
Definition INT_MAX : Z := 2147483647.

Definition in_range (z : Z) : Prop := INT_MIN ≤ z ≤ INT_MAX.

#[global] Instance in_range_dec z : Decision (in_range z).
Proof. unfold in_range. apply _. Defined.

(** The value of an [int] expression, undefined when it overflows. *)
Definition of_Z (z : Z) : option Z :=
  if decide (in_range z) then Some z else None.

Definition add (a b : Z) : option Z := of_Z (a + b).
Definition sub (a b : Z) : option Z := of_Z (a - b).

(** [a % b]: the remainder of the division truncated towards zero. *)
Definition rem (a b : Z) : option Z :=
  if decide (b = 0) then None else of_Z (Z.rem a b).

(** [a && b] and [a || b] evaluate [b] only when [a] does not decide. *)
Definition land (a : bool) (b : option bool) : option bool :=
  if a then b else Some false.
Definition lor (a : bool) (b : option bool) : option bool :=
  if a then Some true else b.

(** An [int] used as a condition. *)
Definition truth (z : Z) : bool := bool_decide (z ≠ 0).

End CInt.

(** ** Data model *)

(** [H3Index] is a [uint64_t]; this file never looks inside it. *)
Definition H3Index : Type := Z.

(** Modelled from the spec: the enumeration [Direction] is declared in a
    header that is not part of src/.  The spec lists its seven values in the
    order Center, K, J, JK, I, IK, IJ; the tables below have seven columns,
    start the pentagon faces "at J_AXES_DIGIT" with offset 2, and call 0 the
    centre and 1 the K axis.  None of the enumerators is negative, so a
    [Direction] is a natural number. *)
Definition Direction : Type := N.

Definition CENTER_DIGIT : Direction := 0%N.
Definition K_AXES_DIGIT : Direction := 1%N.
Definition J_AXES_DIGIT : Direction := 2%N.
Definition JK_AXES_DIGIT : Direction := 3%N.
Definition I_AXES_DIGIT : Direction := 4%N.
Definition IK_AXES_DIGIT : Direction := 5%N.
Definition IJ_AXES_DIGIT : Direction := 6%N.
Definition INVALID_DIGIT : Direction := 7%N.
Definition NUM_DIGITS : nat := 7.

(** Modelled from the spec: the constants of the headers that are not part
    of src/.  Twelve pentagons, six vertices for a hexagon and five for a
    pentagon; [INVALID_VERTEX_NUM] is the "distinguished invalid-vertex
    value", which H3 defines as -1. *)
Definition NUM_PENTAGONS : nat := 12.
Definition NUM_HEX_VERTS : Z := 6.
Definition NUM_PENT_VERTS : Z := 5.
Definition INVALID_VERTEX_NUM : Z := -1.

Definition DIRECTION_INDEX_OFFSET : Z := 2.

(** The structures of the headers, as far as this file uses them: the
    [face] of a [FaceIJK], and the two fields of a row of the pentagon
    table. *)
Record CoordIJK : Type := { i : Z; j : Z; k : Z }.
Record FaceIJK : Type := { face : Z; coord : CoordIJK }.

(** One row of the pentagon table: the base cell and [int faces[NUM_PENT_VERTS]]. *)
Record PentagonDirectionFaces : Type :=
  { baseCell : Z; faces : list Z }.

(** Reading [a[i]] for an [int] index: out of bounds is undefined. *)
Definition index {A : Type} (a : list A) (i : Z) : option A :=
  if decide (0 ≤ i) then a !! Z.to_nat i else None.

(** ** Constant tables *)

Definition pentagonDirectionFaces : list PentagonDirectionFaces :=
  [ {| baseCell := 4;   faces := [4; 0; 2; 1; 3] |};
    {| baseCell := 14;  faces := [6; 11; 2; 7; 1] |};
    {| baseCell := 24;  faces := [5; 10; 1; 6; 0] |};
    {| baseCell := 38;  faces := [7; 12; 3; 8; 2] |};
    {| baseCell := 49;  faces := [9; 14; 0; 5; 4] |};
    {| baseCell := 58;  faces := [8; 13; 4; 9; 3] |};
    {| baseCell := 63;  faces := [11; 6; 15; 10; 16] |};
    {| baseCell := 72;  faces := [12; 7; 16; 11; 17] |};
    {| baseCell := 83;  faces := [10; 5; 19; 14; 15] |};
    {| baseCell := 97;  faces := [13; 8; 17; 12; 18] |};
    {| baseCell := 107; faces := [14; 9; 18; 13; 19] |};
    {| baseCell := 117; faces := [15; 19; 17; 18; 16] |} ].

Definition directionToVertexNumHex : list Z :=
  [Z.of_N INVALID_DIGIT; 3; 1; 2; 5; 4; 0].

Definition directionToVertexNumPent : list Z :=
  [Z.of_N INVALID_DIGIT; Z.of_N INVALID_DIGIT; 1; 2; 4; 3; 0].

(** ** The collaborators *)

(** The functions that h3_vertex.c calls in other translation units.  The
    two output parameters of type [FaceIJK*] become results; the two
    base-cell predicates are only used as conditions and are truth values,
    while the result of [h3IsPentagon] is kept in an [int]. *)

Class Collaborators : Type := {
  _h3ToFaceIjk : H3Index → FaceIJK;
  h3GetBaseCell : H3Index → Z;
  _h3LeadingNonZeroDigit : H3Index → Direction;
  _baseCellToFaceIjk : Z → FaceIJK;
  _baseCellToCCWrot60 : Z → Z → Z;
  _isBaseCellPentagon : Z → bool;
  _isBaseCellPolarPentagon : Z → bool;
  h3IsPentagon : H3Index → Z
}.

(** ** vertexRotations *)

(** The loop over [pentagonDirectionFaces]: the first row whose base cell is
    [b], and nothing ([dirFaces] stays unassigned) when no row matches. *)
Fixpoint scanDirFaces (table : list PentagonDirectionFaces) (b : Z)
  : option PentagonDirectionFaces :=
  match table with
  | [] => None
  | row :: rest =>
      if decide (baseCell row = b) then Some row else scanDirFaces rest b
  end.

(** [dirFaces.faces[d - DIRECTION_INDEX_OFFSET]]. *)
Definition dirFace (dirFaces : option PentagonDirectionFaces) (d : Direction)
  : option Z :=
  row ← dirFaces; index (faces row) (Z.of_N d - DIRECTION_INDEX_OFFSET).

(** [(r + n) % 6]. *)
Definition rotate60 (r n : Z) : option Z := s ← CInt.add r n; CInt.rem s 6.

Section Vertex.

Context `{Collaborators}.

(** "additional CCW rotation for polar neighbors or IK neighbors" *)
Definition polarOrIkRotation (dirFaces : option PentagonDirectionFaces)
    (fijk baseFijk : FaceIJK) (baseCell : Z) (ccwRot60 : Z) : option Z :=
  c ← CInt.land (bool_decide (face fijk ≠ face baseFijk))
        (CInt.lor (_isBaseCellPolarPentagon baseCell)
           (ik ← dirFace dirFaces IK_AXES_DIGIT;
            Some (bool_decide (face fijk = ik))));
  if c : bool then rotate60 ccwRot60 1 else Some ccwRot60.

(** "Check whether the cell crosses a deleted pentagon subsequence" *)
Definition deletedSubsequenceRotation
    (dirFaces : option PentagonDirectionFaces)
    (fijk : FaceIJK) (cellLeadingDigit : Z) (ccwRot60 : Z) : option Z :=
  c1 ← CInt.land (bool_decide (cellLeadingDigit = Z.of_N JK_AXES_DIGIT))
         (ik ← dirFace dirFaces IK_AXES_DIGIT;
          Some (bool_decide (face fijk = ik)));
  if c1 : bool then rotate60 ccwRot60 5
  else
    c2 ← CInt.land (bool_decide (cellLeadingDigit = Z.of_N IK_AXES_DIGIT))
           (jk ← dirFace dirFaces JK_AXES_DIGIT;
            Some (bool_decide (face fijk = jk)));
    if c2 : bool then rotate60 ccwRot60 1 else Some ccwRot60.

Definition vertexRotations (cell : H3Index) : option Z :=
  let fijk := _h3ToFaceIjk cell in
  let baseCell := h3GetBaseCell cell in
  let cellLeadingDigit := Z.of_N (_h3LeadingNonZeroDigit cell) in
  let baseFijk := _baseCellToFaceIjk baseCell in
  let ccwRot60 := _baseCellToCCWrot60 baseCell (face fijk) in
  if _isBaseCellPentagon baseCell then
    let dirFaces := scanDirFaces pentagonDirectionFaces baseCell in
    ccwRot60 ← polarOrIkRotation dirFaces fijk baseFijk baseCell ccwRot60;
    deletedSubsequenceRotation dirFaces fijk cellLeadingDigit ccwRot60
  else Some ccwRot60.

(** ** vertexNumForDirection *)

Definition vertexNumForDirection (origin : H3Index) (direction : Direction)
  : option Z :=
  let isPentagon := h3IsPentagon origin in
  if bool_decide (direction = CENTER_DIGIT)
     || bool_decide (INVALID_DIGIT ≤ direction)%N
     || (CInt.truth isPentagon && bool_decide (direction = K_AXES_DIGIT))
  then Some INVALID_VERTEX_NUM
  else
    rotations ← vertexRotations origin;
    if CInt.truth isPentagon then
      v ← index directionToVertexNumPent (Z.of_N direction);
      s ← CInt.add v NUM_PENT_VERTS;
      d ← CInt.sub s rotations;
      CInt.rem d NUM_PENT_VERTS
    else
      v ← index directionToVertexNumHex (Z.of_N direction);
      s ← CInt.add v NUM_HEX_VERTS;
      d ← CInt.sub s rotations;
      CInt.rem d NUM_HEX_VERTS.

End Vertex.

(** ** Sample collaborators *)

(** A grid in which every cell looks the same: base cell [b] with home face
    [home], projected on face [f] with rotation [rot], leading non-zero
    digit [digit].  As in H3, a cell is a pentagon when its base cell is one
    and all its digits are zero. *)
Definition uniformGrid (b f home : Z) (digit : Direction) (rot : Z)
    (pent polar : bool) : Collaborators :=
  {| _h3ToFaceIjk := λ _, {| face := f; coord := {| i := 0; j := 0; k := 0 |} |};
     h3GetBaseCell := λ _, b;
     _h3LeadingNonZeroDigit := λ _, digit;
     _baseCellToFaceIjk := λ _, {| face := home; coord := {| i := 0; j := 0; k := 0 |} |};
     _baseCellToCCWrot60 := λ _ _, rot;
     _isBaseCellPentagon := λ _, pent;
     _isBaseCellPolarPentagon := λ _, polar;
     h3IsPentagon := λ _, if pent && bool_decide (digit = CENTER_DIGIT) then 1 else 0 |}.

(** Cells of the hexagon base cell 16, seen on face 0 with two rotations. *)
Definition hexagonGrid : Collaborators :=
  uniformGrid 16 0 0 K_AXES_DIGIT 2 false false.

(** Cells of the pentagon base cell 14 (row 6, 11, 2, 7, 1 of the table) with
    leading digit JK, on face 7, away from the home face 6. *)
Definition pentagonGrid : Collaborators :=
  uniformGrid 14 7 6 JK_AXES_DIGIT 3 true false.

(** The pentagon cells of base cell 14 on their home face. *)
Definition pentagonCellGrid : Collaborators :=
  uniformGrid 14 6 6 CENTER_DIGIT 0 true false.

(** Base cell 4 on its home face 0: the pentagon cells themselves, and the
    cells with leading digit IK. *)
Definition polarCellGrid : Collaborators :=
  uniformGrid 4 0 0 CENTER_DIGIT 0 true true.
Definition polarIkGrid : Collaborators :=
  uniformGrid 4 0 0 IK_AXES_DIGIT 0 true true.

(** Cells with leading digit IK of a polar pentagon (base cell 4) on face 0,
    the face read for JK, in a grid where the home face is another one. *)
Definition polarAwayGrid : Collaborators :=
  uniformGrid 4 0 2 IK_AXES_DIGIT 1 true true.

(** A grid that classifies base cell 5, which has no row in the table, as a
    polar pentagon; its cells are on the home face with leading digit
    Center, and in a second grid away from the home face of a pentagon that
    is not polar. *)
Definition strayPentagonGrid : Collaborators :=
  uniformGrid 5 0 0 CENTER_DIGIT 4 true true.
Definition strayAwayGrid : Collaborators :=
  uniformGrid 5 1 0 CENTER_DIGIT 4 true false.

(** The pentagon cells of base cell 14 with five rotations. *)
Definition pentagonFiveGrid : Collaborators :=
  uniformGrid 14 6 6 CENTER_DIGIT 5 true false.

(** ** Valid cells *)

(** The base cells of the pentagon table. *)
Definition pentagonBaseCells : list Z :=
  [4; 14; 24; 38; 49; 58; 63; 72; 83; 97; 107; 117].

Section Validity.

Context `{Collaborators}.

(** What this file relies on for a cell to be valid: the rotation between
    its base cell and its face is a rotation count, and a base cell
    classified as a pentagon is one of the twelve pentagons. *)
Record validCell (cell : H3Index) : Prop := {
  valid_rotation :
    0 ≤ _baseCellToCCWrot60 (h3GetBaseCell cell) (face (_h3ToFaceIjk cell)) < 6;
  valid_pentagon :
    _isBaseCellPentagon (h3GetBaseCell cell) = true →
    h3GetBaseCell cell ∈ pentagonBaseCells
}.

(** The recognized direction values are the seven enumerators below
    [INVALID_DIGIT]. *)
Definition recognized (direction : Direction) : Prop :=
  direction ∈ [CENTER_DIGIT; K_AXES_DIGIT; J_AXES_DIGIT; JK_AXES_DIGIT;
               I_AXES_DIGIT; IK_AXES_DIGIT; IJ_AXES_DIGIT].

(** The directions without a vertex: Center, a value that is not
    recognized, and K for a pentagon cell. *)
Definition rejected (cell : H3Index) (direction : Direction) : Prop :=
  direction = CENTER_DIGIT ∨ ¬ recognized direction ∨
  (h3IsPentagon cell ≠ 0 ∧ direction = K_AXES_DIGIT).

End Validity.

(** The table and the vertex count that [vertexNumForDirection] selects. *)
Definition vertexTable (isPentagon : bool) : list Z :=
  if isPentagon then directionToVertexNumPent else directionToVertexNumHex.
Definition cellVertexCount (isPentagon : bool) : Z :=
  if isPentagon then NUM_PENT_VERTS else NUM_HEX_VERTS.

(** The directions of a cell in cyclic order around it, counter-clockwise
    (J, JK, K, IK, I, IJ); a pentagon has no K neighbour. *)
Definition hexRing : list Direction :=
  [J_AXES_DIGIT; JK_AXES_DIGIT; K_AXES_DIGIT; IK_AXES_DIGIT; I_AXES_DIGIT;
   IJ_AXES_DIGIT].
Definition pentRing : list Direction :=
  [J_AXES_DIGIT; JK_AXES_DIGIT; IK_AXES_DIGIT; I_AXES_DIGIT; IJ_AXES_DIGIT].

(** [vs] runs once around the [n] vertex numbers: every entry is followed,
    cyclically, by its successor modulo [n]. *)
Definition cyclicRun (n : Z) (vs : list Z) : Prop :=
  ∀ (p : nat) (v w : Z),
    vs !! p = Some v → vs !! ((p + 1) mod length vs)%nat = Some w →
    w = (v + 1) mod n.

(** The order of the faces of a row as the specification words it: the
    directions J, IJ, I, IK, JK, read cyclically from position [s]. *)
Definition specFaceOrder : list Direction :=
  [J_AXES_DIGIT; IJ_AXES_DIGIT; I_AXES_DIGIT; IK_AXES_DIGIT; JK_AXES_DIGIT].
Definition specDirectionAt (s p : nat) : option Direction :=
  specFaceOrder !! ((p + s) mod 5)%nat.

(** The order of the faces of a row as [dirFace] reads them. *)
Definition faceOrder : list Direction :=
  [J_AXES_DIGIT; JK_AXES_DIGIT; I_AXES_DIGIT; IK_AXES_DIGIT; IJ_AXES_DIGIT].

(** ** The corrections of vertexRotations as numbers of turns *)

(** The turns that the first correction adds: one for a cell away from the
    home face when the base cell is polar or the face is the one read for
    IK. *)
Definition polarOrIkShift (polar : bool) (f home ikFace : Z) : Z :=
  if bool_decide (f ≠ home ∧ (polar = true ∨ f = ikFace)) then 1 else 0.

(** The turns that the second correction adds: five for digit JK on the
    face read for IK, else one for digit IK on the face read for JK. *)
Definition crossingShift (digit : Direction) (f ikFace jkFace : Z) : Z :=
  if bool_decide (digit = JK_AXES_DIGIT ∧ f = ikFace) then 5
  else if bool_decide (digit = IK_AXES_DIGIT ∧ f = jkFace) then 1 else 0.

(** Modelled from the spec: a face is "one of the 20 icosahedron triangular
    faces"; the constant is declared in a header that is not part of
    src/. *)
Definition NUM_ICOSA_FACES : Z := 20.

(** The rows of the pentagon table that list face [f]. *)
Definition rowsOnFace (f : Z) : list PentagonDirectionFaces :=
  filter (λ row, f ∈ faces row) pentagonDirectionFaces.

(** The digit with the complementary bits: K and IJ, J and IK, JK and I. *)
Definition complementDigit (d : Direction) : Direction := N.lxor d 7.

(** ** The pentagon table against the vertex table *)

(** The rows of the pentagon table that list both [f] and [g]. *)
Definition rowsOnBoth (f g : Z) : list PentagonDirectionFaces :=
  filter (λ row, f ∈ faces row ∧ g ∈ faces row) pentagonDirectionFaces.

(** Two faces meet along an edge of the icosahedron when two rows list
    both: the pentagons at the two ends of the edge. *)
Definition shareEdge (x y : option Z) : Prop :=
  match x, y with
  | Some f, Some g => length (rowsOnBoth f g) = 2%nat
  | _, _ => False
  end.

#[global] Instance shareEdge_dec x y : Decision (shareEdge x y).
Proof. destruct x, y; simpl; apply _. Defined.

(** [e] comes next after [d] around a pentagon: its vertex number in
    [directionToVertexNumPent] is the next one modulo [NUM_PENT_VERTS]. *)
Definition nextAround (od oe : option Direction) : Prop :=
  match od, oe with
  | Some d, Some e =>
      match index directionToVertexNumPent (Z.of_N d),
            index directionToVertexNumPent (Z.of_N e) with
      | Some v, Some w => w = (v + 1) mod NUM_PENT_VERTS
      | _, _ => False
      end
  | _, _ => False
  end.

#[global] Instance nextAround_dec od oe : Decision (nextAround od oe).
Proof.
  destruct od as [d|], oe as [e|]; simpl; try apply _.
  destruct (index directionToVertexNumPent (Z.of_N d)),
    (index directionToVertexNumPent (Z.of_N e)); apply _.
Defined.

(** The positions of the faces in a row. *)
Definition positions : list nat := seq 0 (Z.to_nat NUM_PENT_VERTS).

(** An order of the directions over the positions of a row, [directionAt],
    agrees with the table on [row] when the faces at two positions share
    an edge exactly if the directions at these positions follow each other
    around the pentagon. *)
Definition orderAgrees (directionAt : nat → option Direction)
    (row : PentagonDirectionFaces) : Prop :=
  Forall (λ p, Forall (λ q, p ≠ q →
    (shareEdge (faces row !! p) (faces row !! q) ↔
     nextAround (directionAt p) (directionAt q) ∨
     nextAround (directionAt q) (directionAt p))) positions) positions.

(** Under the order [directionAt] the rows go around their pentagons in the
    same sense when an edge that is passed from one face to the next around
    the pentagon of [row] is passed the other way around the pentagon at
    its other end. *)
Definition sameSense (directionAt : nat → option Direction)
    (row : PentagonDirectionFaces) : Prop :=
  Forall (λ p, Forall (λ q,
    nextAround (directionAt p) (directionAt q) →
    Exists (λ other,
      baseCell other ≠ baseCell row ∧
      Exists (λ p', Exists (λ q',
        faces other !! p' = faces row !! q ∧
        faces other !! q' = faces row !! p ∧
        nextAround (directionAt p') (directionAt q')) positions) positions)
      pentagonDirectionFaces) positions) positions.

(** * Properties *)

(** ** Arithmetic *)

Lemma of_Z_small z : -12 ≤ z ≤ 12 → CInt.of_Z z = Some z.
Proof.
  intros Hz. unfold CInt.of_Z.
  case_decide as Hr; [done|].
  exfalso. apply Hr. unfold CInt.in_range, CInt.INT_MIN, CInt.INT_MAX. lia.
Qed.

Lemma rem_small a n : 0 ≤ a ≤ 12 → 0 < n ≤ 6 → CInt.rem a n = Some (a mod n).
Proof.
  intros Ha Hn. unfold CInt.rem.
  case_decide; [lia|].
  rewrite Z.rem_mod_nonneg by lia.
  apply of_Z_small.
  pose proof (Z.mod_pos_bound a n). lia.
Qed.

Lemma rotate60_spec r n :
  0 ≤ r < 6 → 0 ≤ n < 6 → rotate60 r n = Some ((r + n) mod 6).
Proof.
  intros Hr Hn. unfold rotate60, CInt.add.
  rewrite of_Z_small by lia. simpl.
  apply rem_small; lia.
Qed.

Lemma rotate60_range r n r' :
  0 ≤ r < 6 → 0 ≤ n < 6 → rotate60 r n = Some r' → 0 ≤ r' < 6.
Proof.
  intros Hr Hn. rewrite rotate60_spec by done.
  intros [= <-]. apply Z.mod_pos_bound. lia.
Qed.

(** ** The scan of the pentagon table *)

Lemma table_length : length pentagonDirectionFaces = NUM_PENTAGONS.
Proof. reflexivity. Qed.

Lemma table_base_cells : baseCell <$> pentagonDirectionFaces = pentagonBaseCells.
Proof. reflexivity. Qed.

Lemma scanDirFaces_Some table b row :
  scanDirFaces table b = Some row → row ∈ table ∧ baseCell row = b.
Proof.
  induction table as [|r rest IH]; simpl; [done|].
  case_decide as Hb.
  - intros [= <-]. split; [apply list_elem_of_here | done].
  - intros Hrow. destruct (IH Hrow) as [Hin Heq].
    split; [by apply list_elem_of_further | done].
Qed.

Lemma scanDirFaces_None table b :
  scanDirFaces table b = None ↔ b ∉ baseCell <$> table.
Proof.
  induction table as [|r rest IH]; simpl.
  - split; [intros _; apply not_elem_of_nil | done].
  - rewrite not_elem_of_cons. case_decide as Hb.
    + split; [done | intros [Hne _]; congruence].
    + rewrite IH. split; [intros Hn; split; [congruence | done] | by intros [_ Hn]].
Qed.

Lemma scanDirFaces_found table b :
  b ∈ baseCell <$> table →
  ∃ row, scanDirFaces table b = Some row ∧ row ∈ table ∧ baseCell row = b.
Proof.
  intros Hb. destruct (scanDirFaces table b) as [row|] eqn:Hscan.
  - exists row. split; [done|]. by apply scanDirFaces_Some.
  - apply scanDirFaces_None in Hscan. done.
Qed.

Lemma table_rows_have_five_faces :
  Forall (λ row, length (faces row) = Z.to_nat NUM_PENT_VERTS) pentagonDirectionFaces.
Proof. repeat constructor. Qed.

Lemma dirFace_defined row d :
  row ∈ pentagonDirectionFaces → d ∈ faceOrder →
  ∃ f, dirFace (Some row) d = Some f ∧
       faces row !! Z.to_nat (Z.of_N d - DIRECTION_INDEX_OFFSET) = Some f.
Proof.
  intros Hrow Hd.
  pose proof table_rows_have_five_faces as Hlen.
  rewrite Forall_forall in Hlen.
  specialize (Hlen row (proj1 (list_elem_of_In _ _) Hrow)).
  destruct row as [b fs]. simpl in Hlen.
  destruct fs as [|f0 [|f1 [|f2 [|f3 [|f4 [|f5 fs]]]]]]; try discriminate.
  unfold faceOrder in Hd.
  repeat (apply elem_of_cons in Hd as [-> | Hd]); [eauto ..|].
  by apply elem_of_nil in Hd.
Qed.

(** ** The two corrections of vertexRotations *)

(** After the case analysis on the conditions of a correction: either the
    branch computes the rotation, or its conditions contradict each other. *)
Ltac settle_branch :=
  simpl; try rewrite rotate60_spec by lia;
  first [ done
        | exfalso;
          unfold JK_AXES_DIGIT, IK_AXES_DIGIT in *;
          intuition (discriminate || lia) ].

Section Rotations.

Context `{Collaborators}.

Lemma polarOrIkRotation_spec row fijk baseFijk b r ik :
  dirFace (Some row) IK_AXES_DIGIT = Some ik → 0 ≤ r < 6 →
  polarOrIkRotation (Some row) fijk baseFijk b r =
    Some (if bool_decide (face fijk ≠ face baseFijk ∧
                          (_isBaseCellPolarPentagon b = true ∨ face fijk = ik))
          then (r + 1) mod 6 else r).
Proof.
  intros Hik Hr. unfold polarOrIkRotation. rewrite Hik.
  destruct (_isBaseCellPolarPentagon b); simpl;
    repeat case_bool_decide; settle_branch.
Qed.

Lemma deletedSubsequenceRotation_spec row fijk digit r ik jk :
  dirFace (Some row) IK_AXES_DIGIT = Some ik →
  dirFace (Some row) JK_AXES_DIGIT = Some jk →
  0 ≤ r < 6 →
  deletedSubsequenceRotation (Some row) fijk (Z.of_N digit) r =
    Some (if bool_decide (digit = JK_AXES_DIGIT ∧ face fijk = ik)
          then (r + 5) mod 6
          else if bool_decide (digit = IK_AXES_DIGIT ∧ face fijk = jk)
               then (r + 1) mod 6 else r).
Proof.
  intros Hik Hjk Hr. unfold deletedSubsequenceRotation.
  rewrite Hik, Hjk. simpl.
  repeat case_bool_decide; settle_branch.
Qed.

(** A valid cell of a pentagon base cell: the scan finds its row, both
    faces read from the row exist, and the result is the base rotation
    after the two corrections. *)
Lemma vertexRotations_pentagon cell :
  _isBaseCellPentagon (h3GetBaseCell cell) = true →
  h3GetBaseCell cell ∈ pentagonBaseCells →
  ∃ row ik jk,
    scanDirFaces pentagonDirectionFaces (h3GetBaseCell cell) = Some row ∧
    row ∈ pentagonDirectionFaces ∧ baseCell row = h3GetBaseCell cell ∧
    dirFace (Some row) IK_AXES_DIGIT = Some ik ∧
    dirFace (Some row) JK_AXES_DIGIT = Some jk ∧
    vertexRotations cell =
      (r ← polarOrIkRotation (Some row) (_h3ToFaceIjk cell)
             (_baseCellToFaceIjk (h3GetBaseCell cell)) (h3GetBaseCell cell)
             (_baseCellToCCWrot60 (h3GetBaseCell cell) (face (_h3ToFaceIjk cell)));
       deletedSubsequenceRotation (Some row) (_h3ToFaceIjk cell)
         (Z.of_N (_h3LeadingNonZeroDigit cell)) r).
Proof.
  intros Hp Hpent. rewrite <- table_base_cells in Hpent.
  destruct (scanDirFaces_found _ _ Hpent) as (row & Hscan & Hrow & Hb).
  destruct (dirFace_defined row IK_AXES_DIGIT Hrow) as (ik & Hik & _).
  { unfold faceOrder. repeat constructor. }
  destruct (dirFace_defined row JK_AXES_DIGIT Hrow) as (jk & Hjk & _).
  { unfold faceOrder. repeat constructor. }
  exists row, ik, jk. repeat split; try done.
  unfold vertexRotations. rewrite Hp, Hscan. done.
Qed.

Lemma vertexRotations_valid cell :
  validCell cell → ∃ r, vertexRotations cell = Some r ∧ 0 ≤ r < 6.
Proof.
  intros [Hrot Hpent].
  destruct (_isBaseCellPentagon (h3GetBaseCell cell)) eqn:Hp.
  - destruct (vertexRotations_pentagon cell Hp (Hpent eq_refl))
      as (row & ik & jk & _ & _ & _ & Hik & Hjk & ->).
    rewrite (polarOrIkRotation_spec _ _ _ _ _ ik) by done. simpl.
    set (r1 := if bool_decide _ then _ else _).
    assert (0 ≤ r1 < 6) as Hr1.
    { subst r1. case_bool_decide; [apply Z.mod_pos_bound|]; lia. }
    rewrite (deletedSubsequenceRotation_spec _ _ _ _ ik jk) by done.
    eexists. split; [done|].
    repeat case_bool_decide; try apply Z.mod_pos_bound; lia.
  - exists (_baseCellToCCWrot60 (h3GetBaseCell cell) (face (_h3ToFaceIjk cell))).
    split; [|done]. unfold vertexRotations. by rewrite Hp.
Qed.

End Rotations.

(** ** vertexNumForDirection *)

Lemma recognized_lt d : recognized d ↔ (d < INVALID_DIGIT)%N.
Proof.
  unfold recognized, INVALID_DIGIT. split.
  - intros Hd. repeat (apply elem_of_cons in Hd as [-> | Hd]); try done.
    by apply elem_of_nil in Hd.
  - intros Hd.
    assert (d = 0 ∨ d = 1 ∨ d = 2 ∨ d = 3 ∨ d = 4 ∨ d = 5 ∨ d = 6)%N
      as Hcases by lia.
    repeat (destruct Hcases as [-> | Hcases]); try subst d; repeat constructor.
Qed.

Lemma rotated_vertex v n r :
  0 ≤ v < n → 0 < n ≤ 6 → 0 ≤ r ≤ n →
  (s ← CInt.add v n; d ← CInt.sub s r; CInt.rem d n) = Some ((v + n - r) mod n).
Proof.
  intros Hv Hn Hr. unfold CInt.add, CInt.sub.
  rewrite of_Z_small by lia. simpl.
  rewrite of_Z_small by lia. simpl.
  apply rem_small; lia.
Qed.

Lemma vertexTable_lookup p d :
  (CENTER_DIGIT < d < INVALID_DIGIT)%N → ¬ (p = true ∧ d = K_AXES_DIGIT) →
  ∃ v, index (vertexTable p) (Z.of_N d) = Some v ∧ 0 ≤ v < cellVertexCount p.
Proof.
  unfold CENTER_DIGIT, INVALID_DIGIT, K_AXES_DIGIT. intros Hd Hk.
  assert (d = 1 ∨ d = 2 ∨ d = 3 ∨ d = 4 ∨ d = 5 ∨ d = 6)%N as Hcases by lia.
  destruct p; simpl;
    repeat (destruct Hcases as [-> | Hcases]); try subst d;
    try (exfalso; by apply Hk);
    (eexists; split; [reflexivity | done]).
Qed.

Section VertexNum.

Context `{Collaborators}.

Lemma rejected_guard cell direction :
  bool_decide (direction = CENTER_DIGIT)
  || bool_decide (INVALID_DIGIT ≤ direction)%N
  || (CInt.truth (h3IsPentagon cell) && bool_decide (direction = K_AXES_DIGIT))
  = true ↔ rejected cell direction.
Proof.
  unfold rejected, CInt.truth.
  rewrite !orb_true_iff, andb_true_iff, !bool_decide_eq_true.
  rewrite recognized_lt. rewrite N.nlt_ge. tauto.
Qed.

Lemma vertexNumForDirection_rejected cell direction :
  rejected cell direction →
  vertexNumForDirection cell direction = Some INVALID_VERTEX_NUM.
Proof.
  intros Hrej%rejected_guard. unfold vertexNumForDirection.
  by rewrite Hrej.
Qed.

Lemma accepted_direction cell direction :
  ¬ rejected cell direction →
  (CENTER_DIGIT < direction < INVALID_DIGIT)%N ∧
  ¬ (CInt.truth (h3IsPentagon cell) = true ∧ direction = K_AXES_DIGIT).
Proof.
  unfold rejected, CInt.truth. rewrite recognized_lt, bool_decide_eq_true.
  unfold CENTER_DIGIT, INVALID_DIGIT. intros Hacc. split; [|tauto].
  destruct (decide (direction < 7)%N) as [Hlt | Hge]; [|tauto].
  split; [|done]. apply N.neq_0_lt_0. tauto.
Qed.

Lemma vertexNumForDirection_accepted cell direction r :
  ¬ rejected cell direction →
  vertexRotations cell = Some r → 0 ≤ r < 6 →
  let p := CInt.truth (h3IsPentagon cell) in
  ∃ v, index (vertexTable p) (Z.of_N direction) = Some v ∧
       0 ≤ v < cellVertexCount p ∧
       vertexNumForDirection cell direction =
         Some ((v + cellVertexCount p - r) mod cellVertexCount p).
Proof.
  intros Hacc Hrot Hr p.
  destruct (accepted_direction _ _ Hacc) as [Hd Hk].
  destruct (vertexTable_lookup p direction Hd Hk) as (v & Hv & Hrange).
  exists v. repeat split; try done; try lia.
  unfold vertexNumForDirection.
  destruct (_ || _ || _) eqn:Hguard.
  { by apply rejected_guard in Hguard. }
  rewrite Hrot. simpl. fold p.
  destruct p; simpl in *; rewrite Hv; simpl;
    apply rotated_vertex; unfold NUM_PENT_VERTS, NUM_HEX_VERTS in *; lia.
Qed.

End VertexNum.

(** ** The sample grids are valid *)

Lemma uniformGrid_valid b f home digit rot pent polar cell :
  0 ≤ rot < 6 → (pent = true → b ∈ pentagonBaseCells) →
  validCell (H := uniformGrid b f home digit rot pent polar) cell.
Proof. intros Hrot Hpent. by split. Defined.

(** ** Directions of the rings *)

Section Rings.

Context `{Collaborators}.

Lemma hexRing_accepted cell direction :
  h3IsPentagon cell = 0 → direction ∈ hexRing → ¬ rejected cell direction.
Proof.
  intros Hhex Hd. rewrite <- rejected_guard. unfold CInt.truth.
  rewrite (bool_decide_eq_false_2 (h3IsPentagon cell ≠ 0)) by tauto.
  unfold hexRing in Hd.
  repeat (apply elem_of_cons in Hd as [-> | Hd]); try done.
  by apply elem_of_nil in Hd.
Qed.

Lemma pentRing_accepted cell direction :
  direction ∈ pentRing → ¬ rejected cell direction.
Proof.
  intros Hd. rewrite <- rejected_guard. unfold pentRing in Hd.
  repeat (apply elem_of_cons in Hd as [-> | Hd]);
    try (by destruct (CInt.truth (h3IsPentagon cell))).
  by apply elem_of_nil in Hd.
Qed.

Lemma truth_true cell : h3IsPentagon cell ≠ 0 → CInt.truth (h3IsPentagon cell) = true.
Proof. intros Hp. unfold CInt.truth. by rewrite bool_decide_eq_true_2. Qed.

Lemma truth_false cell : h3IsPentagon cell = 0 → CInt.truth (h3IsPentagon cell) = false.
Proof. intros Hp. unfold CInt.truth. rewrite bool_decide_eq_false_2; [done | tauto]. Qed.

End Rings.

(** Rewrites the vertex number of every direction of a ring with the
    equation that [Hnum] gives for it. *)
Ltac along_ring Hnum ring :=
  unfold ring in *;
  repeat match goal with
    | |- context [vertexNumForDirection ?c ?d] =>
        let v := fresh "v" in
        let Hv := fresh "Hv" in
        let Hres := fresh "Hres" in
        destruct (Hnum d) as (v & Hv & Hres); [repeat constructor|];
        injection Hv as <-; rewrite Hres; clear Hres
    end;
  clear Hnum.

(** Checks [cyclicRun] on a list that is known entry by entry. *)
Ltac run_cycle :=
  let q := fresh "q" in
  intros q ? ?; simpl;
  do 7 (try destruct q as [|q]); simpl;
  intros; simplify_eq; reflexivity.

(** * The claims *)

Section Claims.

Context `{Collaborators}.

(** C1: for a cell whose base cell is not a pentagon, [vertexRotations]
    returns exactly the rotation that [_baseCellToCCWrot60] gives for the
    base cell and the current face; no correction is applied. *)
Theorem vertexRotations_non_pentagon cell :
  _isBaseCellPentagon (h3GetBaseCell cell) = false →
  vertexRotations cell =
    Some (_baseCellToCCWrot60 (h3GetBaseCell cell) (face (_h3ToFaceIjk cell))).
Proof. intros Hp. unfold vertexRotations. by rewrite Hp. Qed.

(** C2: for every valid cell, hexagon or pentagon, [vertexRotations]
    returns a value in 0..5. *)
Theorem vertexRotations_in_range cell :
  validCell cell → ∃ r, vertexRotations cell = Some r ∧ 0 ≤ r ≤ 5.
Proof.
  intros Hvalid. destruct (vertexRotations_valid cell Hvalid) as (r & Hr & Hrange).
  exists r. split; [done | lia].
Qed.

(** C5: for a valid cell of a pentagon base cell, the first correction
    turns the base rotation [r0] into [(r0 + 1) mod 6] precisely when the
    current face differs from the home face and the base cell is polar or
    the current face is the row's face for IK; otherwise it leaves [r0]
    unchanged.  The result [r1] is what the second correction starts
    from. *)
Theorem polar_or_ik_correction cell :
  validCell cell → _isBaseCellPentagon (h3GetBaseCell cell) = true →
  let b := h3GetBaseCell cell in
  let fijk := _h3ToFaceIjk cell in
  let baseFijk := _baseCellToFaceIjk b in
  let r0 := _baseCellToCCWrot60 b (face fijk) in
  ∃ row ikFace r1,
    scanDirFaces pentagonDirectionFaces b = Some row ∧
    dirFace (Some row) IK_AXES_DIGIT = Some ikFace ∧
    polarOrIkRotation (Some row) fijk baseFijk b r0 = Some r1 ∧
    vertexRotations cell =
      deletedSubsequenceRotation (Some row) fijk
        (Z.of_N (_h3LeadingNonZeroDigit cell)) r1 ∧
    let fires :=
      face fijk ≠ face baseFijk ∧
      (_isBaseCellPolarPentagon b = true ∨ face fijk = ikFace) in
    (fires → r1 = (r0 + 1) mod 6 ∧ r1 ≠ r0) ∧ (¬ fires → r1 = r0).
Proof.
  intros [Hrot Hpent] Hp b fijk baseFijk r0.
  destruct (vertexRotations_pentagon cell Hp (Hpent Hp))
    as (row & ik & jk & Hscan & _ & _ & Hik & Hjk & Hvr).
  pose proof (polarOrIkRotation_spec row fijk baseFijk b r0 ik Hik Hrot) as Hstep.
  match type of Hstep with _ = Some ?r1 => exists row, ik, r1 end.
  repeat split; try done.
  - rewrite Hvr. fold b fijk baseFijk r0. by rewrite Hstep.
  - by rewrite bool_decide_eq_true_2.
  - rewrite bool_decide_eq_true_2 by done.
    assert (0 ≤ r0 < 6) as Hr0 by exact Hrot. clearbody r0.
    intros Heq. destruct (decide (r0 = 5)) as [-> | H5]; [done|].
    rewrite Z.mod_small in Heq by lia. lia.
  - intros Hno. by rewrite bool_decide_eq_false_2.
Qed.

(** C6: for a valid cell of a pentagon base cell, the second correction
    turns the rotation [r1] left by the first one into [(r1 - 1) mod 6],
    that is [(r1 + 5) mod 6], when the leading non-zero digit is JK and the
    current face is the row's face for IK; else into [(r1 + 1) mod 6] when
    the digit is IK and the current face is the row's face for JK; else it
    leaves [r1] unchanged.  The two conditions never hold together. *)
Theorem deleted_subsequence_correction cell :
  validCell cell → _isBaseCellPentagon (h3GetBaseCell cell) = true →
  let b := h3GetBaseCell cell in
  let fijk := _h3ToFaceIjk cell in
  let digit := _h3LeadingNonZeroDigit cell in
  ∃ row ikFace jkFace r1 r2,
    scanDirFaces pentagonDirectionFaces b = Some row ∧
    dirFace (Some row) IK_AXES_DIGIT = Some ikFace ∧
    dirFace (Some row) JK_AXES_DIGIT = Some jkFace ∧
    polarOrIkRotation (Some row) fijk (_baseCellToFaceIjk b) b
      (_baseCellToCCWrot60 b (face fijk)) = Some r1 ∧
    0 ≤ r1 ≤ 5 ∧
    deletedSubsequenceRotation (Some row) fijk (Z.of_N digit) r1 = Some r2 ∧
    vertexRotations cell = Some r2 ∧
    let jkToIk := digit = JK_AXES_DIGIT ∧ face fijk = ikFace in
    let ikToJk := digit = IK_AXES_DIGIT ∧ face fijk = jkFace in
    (jkToIk → r2 = (r1 - 1) mod 6 ∧ r2 = (r1 + 5) mod 6) ∧
    (¬ jkToIk → ikToJk → r2 = (r1 + 1) mod 6) ∧
    (¬ jkToIk → ¬ ikToJk → r2 = r1) ∧
    ¬ (jkToIk ∧ ikToJk).
Proof.
  intros [Hrot Hpent] Hp b fijk digit.
  destruct (vertexRotations_pentagon cell Hp (Hpent Hp))
    as (row & ik & jk & Hscan & _ & _ & Hik & Hjk & Hvr).
  fold b fijk digit in Hvr.
  pose proof (polarOrIkRotation_spec row fijk (_baseCellToFaceIjk b) b _ ik
                Hik Hrot) as Hstep.
  fold b fijk in Hstep. rewrite Hstep in Hvr. simpl in Hvr.
  set (r1 := if bool_decide _ then _ else _) in *.
  assert (0 ≤ r1 < 6) as Hr1.
  { subst r1. case_bool_decide; [apply Z.mod_pos_bound; lia | exact Hrot]. }
  pose proof (deletedSubsequenceRotation_spec row fijk digit r1 ik jk
                Hik Hjk Hr1) as Hcross.
  rewrite Hcross in Hvr.
  match type of Hcross with _ = Some ?r2 => exists row, ik, jk, r1, r2 end.
  repeat split; try done; try lia.
  - rewrite bool_decide_eq_true_2 by done.
    replace (r1 - 1) with (r1 + 5 + (-1) * 6) by lia.
    by rewrite Z.mod_add.
  - by rewrite bool_decide_eq_true_2.
  - intros Hno Hyes.
    rewrite (bool_decide_eq_false_2 _ Hno). by rewrite bool_decide_eq_true_2.
  - intros Hno1 Hno2.
    rewrite (bool_decide_eq_false_2 _ Hno1). by rewrite bool_decide_eq_false_2.
  - intros [[Hjkd _] [Hikd _]]. rewrite Hjkd in Hikd. discriminate.
Qed.

(** C3: for a valid cell, [vertexNumForDirection] returns
    [INVALID_VERTEX_NUM] if and only if the direction is Center, or is not
    a recognized direction, or is K while the cell is a pentagon; every
    other direction gets a vertex number of the cell, and in particular K
    on a hexagonal cell does. *)
Theorem invalid_vertex_iff cell direction :
  validCell cell →
  (vertexNumForDirection cell direction = Some INVALID_VERTEX_NUM ↔
     direction = CENTER_DIGIT ∨ ¬ recognized direction ∨
     (h3IsPentagon cell ≠ 0 ∧ direction = K_AXES_DIGIT)) ∧
  (¬ rejected cell direction →
     ∃ v, vertexNumForDirection cell direction = Some v ∧
          0 ≤ v < cellVertexCount (CInt.truth (h3IsPentagon cell))) ∧
  (h3IsPentagon cell = 0 →
     ∃ v, vertexNumForDirection cell K_AXES_DIGIT = Some v ∧ 0 ≤ v ≤ 5).
Proof.
  intros Hvalid.
  destruct (vertexRotations_valid cell Hvalid) as (r & Hr & Hrange).
  assert (∀ d, ¬ rejected cell d →
            ∃ v, vertexNumForDirection cell d = Some v ∧
                 0 ≤ v < cellVertexCount (CInt.truth (h3IsPentagon cell)))
    as Hacc.
  { intros d Hd.
    destruct (vertexNumForDirection_accepted cell d r Hd Hr Hrange)
      as (v & _ & Hv & ->).
    eexists. split; [done|]. apply Z.mod_pos_bound. lia. }
  split; [|split].
  - split; [|apply vertexNumForDirection_rejected].
    intros Hinv. destruct (decide (rejected cell direction)) as [|Hd]; [done|].
    destruct (Hacc direction Hd) as (v & Hv & Hpos).
    rewrite Hv in Hinv. injection Hinv as ->.
    unfold INVALID_VERTEX_NUM in Hpos. lia.
  - apply Hacc.
  - intros Hhex.
    destruct (Hacc K_AXES_DIGIT) as (v & Hv & Hpos).
    { apply hexRing_accepted; [done|]. unfold hexRing. repeat constructor. }
    rewrite (truth_false cell Hhex) in Hpos.
    exists v. split; [done|]. unfold cellVertexCount, NUM_HEX_VERTS in Hpos. lia.
Qed.

(** C4: for a valid cell and a direction valid for it,
    [vertexNumForDirection] returns
    [(table[direction] + count - rotations) mod count], with the pentagon
    table and count 5 for a pentagon cell, the hexagon table and count 6
    otherwise; so the result is in 0..4 for a pentagon cell and a
    direction among J, JK, I, IK, IJ, and in 0..5 for a hexagonal cell and
    a direction among K, J, JK, I, IK, IJ. *)
Theorem vertex_number_formula cell direction :
  validCell cell →
  (h3IsPentagon cell ≠ 0 → direction ∈ pentRing →
     ∃ rotations base,
       vertexRotations cell = Some rotations ∧
       index directionToVertexNumPent (Z.of_N direction) = Some base ∧
       vertexNumForDirection cell direction =
         Some ((base + NUM_PENT_VERTS - rotations) mod NUM_PENT_VERTS) ∧
       0 ≤ (base + NUM_PENT_VERTS - rotations) mod NUM_PENT_VERTS ≤ 4) ∧
  (h3IsPentagon cell = 0 → direction ∈ hexRing →
     ∃ rotations base,
       vertexRotations cell = Some rotations ∧
       index directionToVertexNumHex (Z.of_N direction) = Some base ∧
       vertexNumForDirection cell direction =
         Some ((base + NUM_HEX_VERTS - rotations) mod NUM_HEX_VERTS) ∧
       0 ≤ (base + NUM_HEX_VERTS - rotations) mod NUM_HEX_VERTS ≤ 5).
Proof.
  intros Hvalid.
  destruct (vertexRotations_valid cell Hvalid) as (r & Hr & Hrange).
  split.
  - intros Hpent Hd.
    destruct (vertexNumForDirection_accepted cell direction r
                (pentRing_accepted cell direction Hd) Hr Hrange)
      as (v & Hv & _ & Hres).
    rewrite (truth_true cell Hpent) in Hv, Hres.
    exists r, v. repeat split; try done.
    + apply Z.mod_pos_bound. done.
    + pose proof (Z.mod_pos_bound (v + NUM_PENT_VERTS - r) NUM_PENT_VERTS).
      unfold NUM_PENT_VERTS in *. lia.
  - intros Hhex Hd.
    destruct (vertexNumForDirection_accepted cell direction r
                (hexRing_accepted cell direction Hhex Hd) Hr Hrange)
      as (v & Hv & _ & Hres).
    rewrite (truth_false cell Hhex) in Hv, Hres.
    exists r, v. repeat split; try done.
    + apply Z.mod_pos_bound. done.
    + pose proof (Z.mod_pos_bound (v + NUM_HEX_VERTS - r) NUM_HEX_VERTS).
      unfold NUM_HEX_VERTS in *. lia.
Qed.

(** C8, as amended: for a cell of base cell 4 on the home face of base
    cell 4, when [_baseCellToCCWrot60] gives rotation 0 there and neither
    crossing correction applies (the leading non-zero digit is not JK on
    face 1 and not IK on face 0, the row's faces for IK and JK), the
    rotation is 0 and [vertexNumForDirection] returns for J the unrotated
    value [directionToVertexNumPent[J]], which is 1. *)
Theorem base_cell_4_home_face cell :
  h3GetBaseCell cell = 4 →
  face (_h3ToFaceIjk cell) = face (_baseCellToFaceIjk 4) →
  _baseCellToCCWrot60 4 (face (_baseCellToFaceIjk 4)) = 0 →
  ¬ (_h3LeadingNonZeroDigit cell = JK_AXES_DIGIT ∧ face (_h3ToFaceIjk cell) = 1) →
  ¬ (_h3LeadingNonZeroDigit cell = IK_AXES_DIGIT ∧ face (_h3ToFaceIjk cell) = 0) →
  vertexRotations cell = Some 0 ∧
  vertexNumForDirection cell J_AXES_DIGIT =
    index directionToVertexNumPent (Z.of_N J_AXES_DIGIT) ∧
  vertexNumForDirection cell J_AXES_DIGIT = Some 1.
Proof.
  intros Hb Hhome Hrot Hjk Hik.
  assert (vertexRotations cell = Some 0) as Hr.
  { unfold vertexRotations. rewrite Hb, Hhome, Hrot.
    destruct (_isBaseCellPentagon 4); [|done].
    change (scanDirFaces pentagonDirectionFaces 4)
      with (Some {| baseCell := 4; faces := [4; 0; 2; 1; 3] |}).
    rewrite (polarOrIkRotation_spec _ _ _ _ _ 1) by done.
    rewrite bool_decide_eq_false_2 by (rewrite Hhome; tauto). simpl.
    rewrite (deletedSubsequenceRotation_spec _ _ _ _ 1 0) by done.
    rewrite (bool_decide_eq_false_2 _ Hjk).
    by rewrite (bool_decide_eq_false_2 _ Hik). }
  assert (vertexNumForDirection cell J_AXES_DIGIT = Some 1) as Hv.
  { destruct (vertexNumForDirection_accepted cell J_AXES_DIGIT 0) as (v & Hv & _ & ->);
      [|done|lia|].
    - apply pentRing_accepted. unfold pentRing. repeat constructor.
    - destruct (CInt.truth (h3IsPentagon cell)); by injection Hv as <-. }
  by rewrite Hv.
Qed.

(** C9: for a valid cell, the vertex numbers of the directions taken in
    ring order (J, JK, K, IK, I, IJ for a hexagonal cell, the same without
    K for a pentagon cell) are a permutation of 0..5, respectively 0..4,
    and each is followed, cyclically, by its successor modulo the vertex
    count, whatever the rotation. *)
Theorem vertex_numbers_cyclic cell :
  validCell cell →
  let p := CInt.truth (h3IsPentagon cell) in
  ∃ vs,
    mapM (vertexNumForDirection cell) (if p then pentRing else hexRing)
      = Some vs ∧
    vs ≡ₚ seqZ 0 (cellVertexCount p) ∧
    cyclicRun (cellVertexCount p) vs.
Proof.
  intros Hvalid p.
  destruct (vertexRotations_valid cell Hvalid) as (r & Hr & Hrange).
  assert (∀ d, d ∈ (if p then pentRing else hexRing) →
            ∃ v, index (vertexTable p) (Z.of_N d) = Some v ∧
                 vertexNumForDirection cell d =
                   Some ((v + cellVertexCount p - r) mod cellVertexCount p))
    as Hnum.
  { intros d Hd.
    destruct (vertexNumForDirection_accepted cell d r) as (v & Hv & _ & Hres);
      [|done|done|by exists v].
    subst p. destruct (CInt.truth (h3IsPentagon cell)) eqn:Hp.
    - by apply pentRing_accepted.
    - apply hexRing_accepted; [|done].
      unfold CInt.truth in Hp. apply bool_decide_eq_false in Hp.
      destruct (decide (h3IsPentagon cell = 0)); [done | tauto]. }
  clearbody p. clear Hr Hvalid.
  assert (r = 0 ∨ r = 1 ∨ r = 2 ∨ r = 3 ∨ r = 4 ∨ r = 5) as Hcases by lia.
  destruct p; simpl in *.
  - along_ring Hnum pentRing.
    repeat (destruct Hcases as [-> | Hcases]); try subst r;
      (eexists; split; [reflexivity | split; [by apply (bool_decide_unpack _); vm_compute | run_cycle]]).
  - along_ring Hnum hexRing.
    repeat (destruct Hcases as [-> | Hcases]); try subst r;
      (eexists; split; [reflexivity | split; [by apply (bool_decide_unpack _); vm_compute | run_cycle]]).
Qed.

(** C10: when the base cell of a cell is classified as a pentagon and is
    one of 4, 14, 24, 38, 49, 58, 63, 72, 83, 97, 107, 117, the scan of
    the table finds its row, so [dirFaces] is assigned before it is read:
    both reads of [vertexRotations] return a face of that row. *)
Theorem scan_finds_pentagon_row cell :
  _isBaseCellPentagon (h3GetBaseCell cell) = true →
  h3GetBaseCell cell ∈ [4; 14; 24; 38; 49; 58; 63; 72; 83; 97; 107; 117] →
  ∃ row ikFace jkFace,
    scanDirFaces pentagonDirectionFaces (h3GetBaseCell cell) = Some row ∧
    row ∈ pentagonDirectionFaces ∧
    baseCell row = h3GetBaseCell cell ∧
    dirFace (scanDirFaces pentagonDirectionFaces (h3GetBaseCell cell))
      IK_AXES_DIGIT = Some ikFace ∧
    dirFace (scanDirFaces pentagonDirectionFaces (h3GetBaseCell cell))
      JK_AXES_DIGIT = Some jkFace.
Proof.
  intros Hp Hb.
  destruct (vertexRotations_pentagon cell Hp Hb)
    as (row & ik & jk & Hscan & Hrow & Hbase & Hik & Hjk & _).
  exists row, ik, jk. rewrite Hscan. done.
Qed.

End Claims.

(** ** The order of the faces in a row *)

Lemma orderAgrees_ext f g row :
  (∀ p, f p = g p) → orderAgrees f row → orderAgrees g row.
Proof.
  intros Hext Hf. unfold orderAgrees in *.
  eapply Forall_impl; [|exact Hf]. intros p Hp. simpl in Hp.
  eapply Forall_impl; [|exact Hp]. intros q Hq Hne. simpl in Hq.
  rewrite <- !Hext. by apply Hq.
Qed.

(** With the directions J, JK, I, IK, IJ at the positions 0 to 4, every row
    agrees with the vertex table, and all rows go around their pentagon in
    the same sense. *)
Lemma table_agrees_with_digit_order :
  Forall (λ row, orderAgrees (λ p, faceOrder !! p) row ∧
                 sameSense (λ p, faceOrder !! p) row)
         pentagonDirectionFaces.
Proof. by apply (bool_decide_unpack _); vm_compute. Qed.

(** C7, as amended: in every row of the table the five faces are stored in
    the order of the directions J, JK, I, IK, IJ, that is by increasing
    digit, the face for direction [d] at position
    [d - DIRECTION_INDEX_OFFSET]; the face read as the IK face is the one at
    position 3 and the face read as the JK face the one at position 1.  The
    stored faces agree with this order: the faces at two positions share an
    edge (a second row lists both) exactly when the directions of these
    positions have consecutive vertex numbers in
    [directionToVertexNumPent], and every row goes around its pentagon in
    the same sense. *)
Theorem faces_in_digit_order :
  Forall (λ row,
            dirFace (Some row) <$> faceOrder = Some <$> faces row ∧
            dirFace (Some row) IK_AXES_DIGIT = faces row !! 3%nat ∧
            dirFace (Some row) JK_AXES_DIGIT = faces row !! 1%nat ∧
            (∀ d, d ∈ faceOrder →
                  dirFace (Some row) d =
                    faces row !! Z.to_nat (Z.of_N d - DIRECTION_INDEX_OFFSET)) ∧
            orderAgrees (λ p, faceOrder !! p) row ∧
            sameSense (λ p, faceOrder !! p) row)
         pentagonDirectionFaces.
Proof.
  apply Forall_forall. intros row Hrow%list_elem_of_In.
  assert (∀ d, d ∈ faceOrder →
               dirFace (Some row) d =
                 faces row !! Z.to_nat (Z.of_N d - DIRECTION_INDEX_OFFSET))
    as Hread.
  { intros d Hd. destruct (dirFace_defined row d Hrow Hd) as (f & -> & ->). done. }
  pose proof table_rows_have_five_faces as Hlen.
  rewrite Forall_forall in Hlen.
  specialize (Hlen row (proj1 (list_elem_of_In _ _) Hrow)).
  pose proof table_agrees_with_digit_order as Hagree.
  rewrite Forall_forall in Hagree.
  specialize (Hagree row (proj1 (list_elem_of_In _ _) Hrow)).
  split; [|split; [|split; [|split; [done | exact Hagree]]]].
  - destruct row as [b fs]. simpl in *.
    destruct fs as [|f0 [|f1 [|f2 [|f3 [|f4 [|f5 fs]]]]]]; try discriminate.
    reflexivity.
  - apply Hread. unfold faceOrder. repeat constructor.
  - apply Hread. unfold faceOrder. repeat constructor.
Qed.

(** The agreement depends on the faces that a row stores: with the first two
    faces of the row of base cell 4 exchanged it is lost. *)
Example exchanged_faces_disagree :
  ¬ orderAgrees (λ p, faceOrder !! p) {| baseCell := 4; faces := [0; 4; 2; 1; 3] |}.
Proof. by apply (bool_decide_unpack _); vm_compute. Qed.

(** IK and JK are neighbours in the cycle J, IJ, I, IK, JK, while the code
    reads their faces two positions apart, at 3 and at 1. *)
Lemma spec_order_misses_read_positions :
  ¬ ∃ s : nat, specDirectionAt s 3 = Some IK_AXES_DIGIT ∧
               specDirectionAt s 1 = Some JK_AXES_DIGIT.
Proof.
  intros (s & Hik & Hjk).
  assert (∀ p, specDirectionAt s p = specDirectionAt (s mod 5) p) as Hred.
  { intros p. unfold specDirectionAt. by rewrite Nat.Div0.add_mod_idemp_r. }
  pose proof (Nat.mod_upper_bound s 5 ltac:(lia)) as Hlt.
  rewrite Hred in Hik, Hjk.
  destruct (s mod 5)%nat as [|[|[|[|[|t]]]]]; [..|lia];
    vm_compute in Hik, Hjk; simplify_eq.
Qed.

(** Nor do the stored faces agree with the cycle J, IJ, I, IK, JK: it
    would put next to each other, at the positions 1 and 2 of the row of
    base cell 4, the faces 0 and 2, which no second row lists together. *)
Lemma spec_order_disagrees_with_table :
  ¬ ∃ s : nat,
      orderAgrees (specDirectionAt s) {| baseCell := 4; faces := [4; 0; 2; 1; 3] |}.
Proof.
  intros [s Hs].
  apply (orderAgrees_ext _ (specDirectionAt (s mod 5))) in Hs.
  2: { intros p. unfold specDirectionAt. by rewrite Nat.Div0.add_mod_idemp_r. }
  pose proof (Nat.mod_upper_bound s 5 ltac:(lia)) as Hlt.
  destruct (s mod 5)%nat as [|[|[|[|[|t]]]]]; [..|lia];
    revert Hs; by apply (bool_decide_unpack _); vm_compute.
Qed.

(** C7, as stated, fails on the first row of the table (base cell 4, faces
    4, 0, 2, 1, 3): no shift [s] makes the face stored at every position
    [p] the face that the code reads for the direction at position [p + s]
    of the cycle J, IJ, I, IK, JK; no shift puts IK and JK at the positions
    3 and 1 from which the code reads their faces; and no shift makes the
    cycle agree with the faces that the table stores. *)
Lemma spec_face_order_counterexample :
  let row := {| baseCell := 4; faces := [4; 0; 2; 1; 3] |} in
  row ∈ pentagonDirectionFaces ∧
  (¬ ∃ s : nat, ∀ p : nat, (p < 5)%nat →
       ∃ d, specDirectionAt s p = Some d ∧ dirFace (Some row) d = faces row !! p) ∧
  (¬ ∃ s : nat, specDirectionAt s 3 = Some IK_AXES_DIGIT ∧
                specDirectionAt s 1 = Some JK_AXES_DIGIT) ∧
  (¬ ∃ s : nat, orderAgrees (specDirectionAt s) row).
Proof.
  split; [repeat constructor|].
  split; [|split; [by apply spec_order_misses_read_positions
                  |by apply spec_order_disagrees_with_table]].
  intros [s Hs].
  assert (∀ p, specDirectionAt s p = specDirectionAt (s mod 5) p) as Hred.
  { intros p. unfold specDirectionAt. by rewrite Nat.Div0.add_mod_idemp_r. }
  pose proof (Nat.mod_upper_bound s 5 ltac:(lia)) as Hlt.
  destruct (Hs 0%nat ltac:(lia)) as (d0 & Hd0 & Hf0).
  destruct (Hs 1%nat ltac:(lia)) as (d1 & Hd1 & Hf1).
  rewrite Hred in Hd0, Hd1.
  destruct (s mod 5)%nat as [|[|[|[|[|t]]]]]; [..|lia];
    vm_compute in Hd0, Hd1; simplify_eq; vm_compute in Hf0, Hf1; simplify_eq.
Qed.

(** ** Base cell 4 on its home face *)

(** C8, as stated, fails for the cells of base cell 4 with leading digit IK
    on the home face 0, which is the row's face for JK: the crossing
    correction makes the rotation 1, and the vertex number for J is 0, not
    [directionToVertexNumPent[J]]. *)
Lemma base_cell_4_home_face_counterexample :
  let cell : H3Index := 0 in
  h3GetBaseCell (Collaborators := polarIkGrid) cell = 4 ∧
  face (_h3ToFaceIjk (Collaborators := polarIkGrid) cell)
    = face (_baseCellToFaceIjk (Collaborators := polarIkGrid) 4) ∧
  validCell (H := polarIkGrid) cell ∧
  vertexRotations (H := polarIkGrid) cell = Some 1 ∧
  vertexNumForDirection (H := polarIkGrid) cell J_AXES_DIGIT = Some 0 ∧
  index directionToVertexNumPent (Z.of_N J_AXES_DIGIT) = Some 1 ∧
  vertexNumForDirection (H := polarIkGrid) cell J_AXES_DIGIT
    ≠ index directionToVertexNumPent (Z.of_N J_AXES_DIGIT).
Proof.
  split; [reflexivity|]. split; [reflexivity|].
  split.
  { apply uniformGrid_valid; [lia|]. intros _.
    unfold pentagonBaseCells. repeat constructor. }
  split; [reflexivity|]. split; [reflexivity|]. split; [reflexivity|].
  vm_compute. discriminate.
Qed.

(** * The theorems on the sample grids *)

Ltac sample_valid :=
  apply uniformGrid_valid;
  [ lia
  | first [ discriminate
          | intros _; unfold pentagonBaseCells; repeat constructor ] ].

Lemma vertexRotations_non_pentagon_witness :
  vertexRotations (H := hexagonGrid) 0 = Some 2.
Proof.
  apply (vertexRotations_non_pentagon (H := hexagonGrid) 0). reflexivity.
Defined.

Lemma vertexRotations_in_range_witness :
  ∃ r, vertexRotations (H := pentagonGrid) 0 = Some r ∧ 0 ≤ r ≤ 5.
Proof.
  apply (vertexRotations_in_range (H := pentagonGrid) 0). sample_valid.
Defined.

Lemma invalid_vertex_iff_witness :
  vertexNumForDirection (H := pentagonCellGrid) 0 K_AXES_DIGIT
    = Some INVALID_VERTEX_NUM ∧
  ∃ v, vertexNumForDirection (H := hexagonGrid) 0 K_AXES_DIGIT = Some v ∧
       0 ≤ v ≤ 5.
Proof.
  split.
  - apply (invalid_vertex_iff (H := pentagonCellGrid) 0 K_AXES_DIGIT).
    + sample_valid.
    + right. right. split; [simpl; lia | reflexivity].
  - apply (invalid_vertex_iff (H := hexagonGrid) 0 K_AXES_DIGIT).
    + sample_valid.
    + reflexivity.
Defined.

Lemma vertex_number_formula_witness :
  (∃ rotations base,
     vertexRotations (H := pentagonCellGrid) 0 = Some rotations ∧
     index directionToVertexNumPent (Z.of_N IK_AXES_DIGIT) = Some base ∧
     vertexNumForDirection (H := pentagonCellGrid) 0 IK_AXES_DIGIT =
       Some ((base + NUM_PENT_VERTS - rotations) mod NUM_PENT_VERTS) ∧
     0 ≤ (base + NUM_PENT_VERTS - rotations) mod NUM_PENT_VERTS ≤ 4) ∧
  (∃ rotations base,
     vertexRotations (H := hexagonGrid) 0 = Some rotations ∧
     index directionToVertexNumHex (Z.of_N K_AXES_DIGIT) = Some base ∧
     vertexNumForDirection (H := hexagonGrid) 0 K_AXES_DIGIT =
       Some ((base + NUM_HEX_VERTS - rotations) mod NUM_HEX_VERTS) ∧
     0 ≤ (base + NUM_HEX_VERTS - rotations) mod NUM_HEX_VERTS ≤ 5).
Proof.
  split.
  - apply (vertex_number_formula (H := pentagonCellGrid) 0 IK_AXES_DIGIT).
    + sample_valid.
    + simpl. lia.
    + unfold pentRing. repeat constructor.
  - apply (vertex_number_formula (H := hexagonGrid) 0 K_AXES_DIGIT).
    + sample_valid.
    + reflexivity.
    + unfold hexRing. repeat constructor.
Defined.

Lemma polar_or_ik_correction_witness :
  ∃ row r1,
    scanDirFaces pentagonDirectionFaces 14 = Some row ∧
    dirFace (Some row) IK_AXES_DIGIT = Some 7 ∧
    polarOrIkRotation (H := pentagonGrid) (Some row)
      (_h3ToFaceIjk (Collaborators := pentagonGrid) 0)
      (_baseCellToFaceIjk (Collaborators := pentagonGrid) 14) 14 3 = Some r1 ∧
    r1 = 4.
Proof.
  destruct (polar_or_ik_correction (H := pentagonGrid) 0)
    as (row & ik & r1 & Hscan & Hik & Hstep & _ & Hfires & _).
  - sample_valid.
  - reflexivity.
  - exists row, r1. simpl in Hscan. injection Hscan as <-.
    simpl in Hik. injection Hik as <-.
    repeat split; try done.
    apply Hfires. split; [simpl; lia | by right].
Defined.

Lemma deleted_subsequence_correction_witness :
  ∃ row r1 r2,
    scanDirFaces pentagonDirectionFaces 14 = Some row ∧
    dirFace (Some row) IK_AXES_DIGIT = Some 7 ∧
    0 ≤ r1 ≤ 5 ∧
    vertexRotations (H := pentagonGrid) 0 = Some r2 ∧
    r2 = (r1 - 1) mod 6.
Proof.
  destruct (deleted_subsequence_correction (H := pentagonGrid) 0)
    as (row & ik & jk & r1 & r2 & Hscan & Hik & _ & _ & Hr1 & _ & Hvr & Hjk & _).
  - sample_valid.
  - reflexivity.
  - exists row, r1, r2. simpl in Hscan. injection Hscan as <-.
    simpl in Hik. injection Hik as <-.
    repeat split; try done; try lia.
    apply Hjk. by split.
Defined.

Lemma base_cell_4_home_face_witness :
  vertexRotations (H := polarCellGrid) 0 = Some 0 ∧
  vertexNumForDirection (H := polarCellGrid) 0 J_AXES_DIGIT =
    index directionToVertexNumPent (Z.of_N J_AXES_DIGIT) ∧
  vertexNumForDirection (H := polarCellGrid) 0 J_AXES_DIGIT = Some 1.
Proof.
  apply (base_cell_4_home_face (H := polarCellGrid) 0);
    try reflexivity; intros [Hd _]; discriminate.
Defined.

Lemma vertex_numbers_cyclic_witness :
  ∃ vs,
    mapM (vertexNumForDirection (H := hexagonGrid) 0) hexRing = Some vs ∧
    vs ≡ₚ seqZ 0 6 ∧ cyclicRun 6 vs.
Proof.
  apply (vertex_numbers_cyclic (H := hexagonGrid) 0). sample_valid.
Defined.

Lemma scan_finds_pentagon_row_witness :
  ∃ row ikFace jkFace,
    scanDirFaces pentagonDirectionFaces 14 = Some row ∧
    row ∈ pentagonDirectionFaces ∧
    baseCell row = 14 ∧
    dirFace (scanDirFaces pentagonDirectionFaces 14) IK_AXES_DIGIT = Some ikFace ∧
    dirFace (scanDirFaces pentagonDirectionFaces 14) JK_AXES_DIGIT = Some jkFace.
Proof.
  apply (scan_finds_pentagon_row (H := pentagonGrid) 0).
  - reflexivity.
  - repeat constructor.
Defined.

(** ** Values on the sample grids *)

Example pentagonGrid_rotations :
  vertexRotations (H := pentagonGrid) 0 = Some 3.
Proof. reflexivity. Qed.

Example hexagonGrid_vertices :
  mapM (vertexNumForDirection (H := hexagonGrid) 0) hexRing
    = Some [5; 0; 1; 2; 3; 4].
Proof. reflexivity. Qed.

Example pentagonCellGrid_vertices :
  vertexNumForDirection (H := pentagonCellGrid) 0
    <$> [CENTER_DIGIT; K_AXES_DIGIT; J_AXES_DIGIT; JK_AXES_DIGIT;
         I_AXES_DIGIT; IK_AXES_DIGIT; IJ_AXES_DIGIT; INVALID_DIGIT]
    = [Some (-1); Some (-1); Some 1; Some 2; Some 4; Some 3; Some 0; Some (-1)].
Proof. reflexivity. Qed.

(** A base cell that is classified as a pentagon without being in the
    table: the row is never assigned, and the read of its IK face for a cell
    away from the home face is undefined. *)
Example unknown_pentagon_undefined :
  vertexRotations (H := uniformGrid 5 1 0 CENTER_DIGIT 0 true false) 0 = None.
Proof. reflexivity. Qed.

(** The row of a base cell outside the table is only missed when it is
    read: on the home face with leading digit Center nothing reads it. *)
Example unknown_pentagon_not_read :
  vertexRotations (H := uniformGrid 5 0 0 CENTER_DIGIT 0 true false) 0 = Some 0.
Proof. reflexivity. Qed.

(** The rotation on the home face is the collaborator's: were it 1 for base
    cell 4, the pentagon cell itself would get vertex 0 for J. *)
Example home_face_rotation_is_collaborators :
  vertexNumForDirection (H := uniformGrid 4 0 0 CENTER_DIGIT 1 true true) 0
    J_AXES_DIGIT = Some 0.
Proof. reflexivity. Qed.

(** * Further properties of the code *)

(** ** The pentagon table as a lookup table *)

Lemma table_base_cells_distinct : NoDup (baseCell <$> pentagonDirectionFaces).
Proof. by apply (bool_decide_unpack _); vm_compute. Qed.

Lemma scan_finds_own_row table row :
  NoDup (baseCell <$> table) → row ∈ table →
  scanDirFaces table (baseCell row) = Some row.
Proof.
  induction table as [|r rest IH]; csimpl.
  - intros _ Hrow. by apply elem_of_nil in Hrow.
  - rewrite list.NoDup_cons. intros [Hfresh Hrest] Hrow.
    apply elem_of_cons in Hrow as [-> | Hrow].
    + by rewrite decide_True.
    + rewrite decide_False; [by apply IH|].
      intros Heq. apply Hfresh. rewrite Heq.
      by apply list_elem_of_fmap_2.
Qed.

(** X1: the scan is the lookup of a row by its base cell: it returns a row
    exactly when that row is in the table under the base cell asked for,
    and nothing exactly when the base cell is none of the twelve. *)
Theorem scan_is_lookup_by_base_cell (b : Z) (row : PentagonDirectionFaces) :
  (scanDirFaces pentagonDirectionFaces b = Some row ↔
     row ∈ pentagonDirectionFaces ∧ baseCell row = b) ∧
  (scanDirFaces pentagonDirectionFaces b = None ↔ b ∉ pentagonBaseCells).
Proof.
  split.
  - split; [apply scanDirFaces_Some|].
    intros [Hrow <-]. apply scan_finds_own_row; [|done].
    apply table_base_cells_distinct.
  - rewrite <- table_base_cells. apply scanDirFaces_None.
Qed.

(** X2: the table is well formed: [NUM_PENTAGONS] rows with distinct base
    cells, each with [NUM_PENT_VERTS] distinct faces of the icosahedron,
    and every face of the icosahedron is listed by exactly three rows. *)
Theorem pentagon_table_well_formed :
  length pentagonDirectionFaces = NUM_PENTAGONS ∧
  NoDup (baseCell <$> pentagonDirectionFaces) ∧
  Forall (λ row, Z.of_nat (length (faces row)) = NUM_PENT_VERTS ∧
                 NoDup (faces row) ∧
                 Forall (λ f, 0 ≤ f < NUM_ICOSA_FACES) (faces row))
         pentagonDirectionFaces ∧
  Forall (λ f, length (rowsOnFace f) = 3%nat) (seqZ 0 NUM_ICOSA_FACES).
Proof.
  split; [reflexivity|]. split; [apply table_base_cells_distinct|].
  split; by apply (bool_decide_unpack _); vm_compute.
Qed.

Lemma row_ik_jk_distinct row ik jk :
  row ∈ pentagonDirectionFaces →
  dirFace (Some row) IK_AXES_DIGIT = Some ik →
  dirFace (Some row) JK_AXES_DIGIT = Some jk → ik ≠ jk.
Proof.
  intros Hrow Hik Hjk Heq. subst jk. unfold pentagonDirectionFaces in Hrow.
  repeat (apply elem_of_cons in Hrow as [-> | Hrow]);
    try (by apply elem_of_nil in Hrow);
    vm_compute in Hik, Hjk; congruence.
Qed.

Lemma scan_is_missing b :
  b ∉ pentagonBaseCells → scanDirFaces pentagonDirectionFaces b = None.
Proof. rewrite <- table_base_cells. apply scanDirFaces_None. Qed.

(** ** The corrections together *)

Section Corrections.

Context `{Collaborators}.

(** For a valid cell of a pentagon base cell the result is the base
    rotation plus the turns of both corrections, reduced modulo 6 once. *)
Lemma vertexRotations_shifts cell :
  validCell cell → _isBaseCellPentagon (h3GetBaseCell cell) = true →
  ∃ row ik jk,
    scanDirFaces pentagonDirectionFaces (h3GetBaseCell cell) = Some row ∧
    row ∈ pentagonDirectionFaces ∧
    dirFace (Some row) IK_AXES_DIGIT = Some ik ∧
    dirFace (Some row) JK_AXES_DIGIT = Some jk ∧
    vertexRotations cell =
      Some ((_baseCellToCCWrot60 (h3GetBaseCell cell) (face (_h3ToFaceIjk cell))
             + polarOrIkShift (_isBaseCellPolarPentagon (h3GetBaseCell cell))
                 (face (_h3ToFaceIjk cell))
                 (face (_baseCellToFaceIjk (h3GetBaseCell cell))) ik
             + crossingShift (_h3LeadingNonZeroDigit cell)
                 (face (_h3ToFaceIjk cell)) ik jk) mod 6).
Proof.
  intros [Hrot Hpent] Hp.
  destruct (vertexRotations_pentagon cell Hp (Hpent Hp))
    as (row & ik & jk & Hscan & Hrow & _ & Hik & Hjk & ->).
  exists row, ik, jk. repeat split; try done.
  rewrite (polarOrIkRotation_spec _ _ _ _ _ ik) by done. simpl.
  unfold polarOrIkShift, crossingShift.
  set (r0 := _baseCellToCCWrot60 _ _) in *.
  case_bool_decide as Hfirst.
  - rewrite (deletedSubsequenceRotation_spec _ _ _ _ ik jk)
      by (try done; apply Z.mod_pos_bound; lia).
    f_equal. repeat case_bool_decide;
      rewrite ?Zplus_mod_idemp_l, ?Z.add_0_r; done.
  - rewrite (deletedSubsequenceRotation_spec _ _ _ _ ik jk) by done.
    f_equal. repeat case_bool_decide;
      rewrite ?Z.add_0_r; try done.
    rewrite Z.mod_small; lia.
Qed.

(** X3: the two corrections compose additively: for a valid cell of a
    pentagon base cell the result is
    [(r0 + polarOrIkShift + crossingShift) mod 6], with the IK face read at
    position 3 and the JK face at position 1 of the row of the base
    cell. *)
Theorem vertexRotations_closed_form cell :
  validCell cell → _isBaseCellPentagon (h3GetBaseCell cell) = true →
  let b := h3GetBaseCell cell in
  let f := face (_h3ToFaceIjk cell) in
  ∃ row ikFace jkFace,
    row ∈ pentagonDirectionFaces ∧ baseCell row = b ∧
    faces row !! 3%nat = Some ikFace ∧ faces row !! 1%nat = Some jkFace ∧
    vertexRotations cell =
      Some ((_baseCellToCCWrot60 b f
             + polarOrIkShift (_isBaseCellPolarPentagon b) f
                 (face (_baseCellToFaceIjk b)) ikFace
             + crossingShift (_h3LeadingNonZeroDigit cell) f ikFace jkFace)
            mod 6).
Proof.
  intros Hvalid Hp b f.
  destruct (vertexRotations_shifts cell Hvalid Hp)
    as (row & ik & jk & Hscan & Hrow & Hik & Hjk & Hvr).
  apply scanDirFaces_Some in Hscan as [_ Hb].
  exists row, ik, jk. repeat split; done.
Qed.

(** X4: a cell with leading digit JK on the face read for IK, away from the
    home face, gets both corrections, one turn forward and five more: they
    cancel, and the result is the base rotation. *)
Theorem crossing_cancels_ik_turn cell :
  validCell cell → _isBaseCellPentagon (h3GetBaseCell cell) = true →
  _h3LeadingNonZeroDigit cell = JK_AXES_DIGIT →
  dirFace (scanDirFaces pentagonDirectionFaces (h3GetBaseCell cell))
    IK_AXES_DIGIT = Some (face (_h3ToFaceIjk cell)) →
  face (_h3ToFaceIjk cell) ≠ face (_baseCellToFaceIjk (h3GetBaseCell cell)) →
  vertexRotations cell =
    Some (_baseCellToCCWrot60 (h3GetBaseCell cell) (face (_h3ToFaceIjk cell))).
Proof.
  intros Hvalid Hp Hdigit Hface Haway.
  destruct (vertexRotations_shifts cell Hvalid Hp)
    as (row & ik & jk & Hscan & _ & Hik & _ & ->).
  rewrite Hscan, Hik in Hface. injection Hface as ->.
  unfold polarOrIkShift, crossingShift.
  rewrite bool_decide_eq_true_2 by tauto.
  rewrite bool_decide_eq_true_2 by done.
  destruct Hvalid as [Hrot _]. f_equal.
  replace (_ + 1 + 5) with
    (_baseCellToCCWrot60 (h3GetBaseCell cell) (face (_h3ToFaceIjk cell)) + 1 * 6)
    by lia.
  rewrite Z.mod_add by lia. by apply Z.mod_small.
Qed.

(** X5: a cell of a polar pentagon with leading digit IK on the face read for
    JK, away from the home face, gets one turn from each correction: the
    result is the base rotation plus two. *)
Theorem polar_crossing_adds_two cell :
  validCell cell → _isBaseCellPentagon (h3GetBaseCell cell) = true →
  _isBaseCellPolarPentagon (h3GetBaseCell cell) = true →
  _h3LeadingNonZeroDigit cell = IK_AXES_DIGIT →
  dirFace (scanDirFaces pentagonDirectionFaces (h3GetBaseCell cell))
    JK_AXES_DIGIT = Some (face (_h3ToFaceIjk cell)) →
  face (_h3ToFaceIjk cell) ≠ face (_baseCellToFaceIjk (h3GetBaseCell cell)) →
  vertexRotations cell =
    Some ((_baseCellToCCWrot60 (h3GetBaseCell cell) (face (_h3ToFaceIjk cell)) + 2)
          mod 6).
Proof.
  intros Hvalid Hp Hpolar Hdigit Hface Haway.
  destruct (vertexRotations_shifts cell Hvalid Hp)
    as (row & ik & jk & Hscan & _ & _ & Hjk & ->).
  rewrite Hscan, Hjk in Hface. injection Hface as ->.
  unfold polarOrIkShift, crossingShift.
  rewrite bool_decide_eq_true_2 by tauto.
  rewrite bool_decide_eq_false_2
    by (rewrite Hdigit; intros [Hd _]; discriminate).
  rewrite bool_decide_eq_true_2 by done.
  f_equal. f_equal. lia.
Qed.

(** X6: the corrections never turn a cell by three or four: the result differs
    from the base rotation by 0, 1, 2 or 5 turns, and by 2 only for a polar
    pentagon. *)
Theorem total_correction_values cell :
  validCell cell → _isBaseCellPentagon (h3GetBaseCell cell) = true →
  let r0 := _baseCellToCCWrot60 (h3GetBaseCell cell) (face (_h3ToFaceIjk cell)) in
  ∃ r, vertexRotations cell = Some r ∧
       (r - r0) mod 6 ∈ [0; 1; 2; 5] ∧
       (_isBaseCellPolarPentagon (h3GetBaseCell cell) = false →
        (r - r0) mod 6 ∈ [0; 1; 5]).
Proof.
  intros Hvalid Hp r0.
  destruct (vertexRotations_shifts cell Hvalid Hp)
    as (row & ik & jk & _ & Hrow & Hik & Hjk & ->).
  pose proof (row_ik_jk_distinct row ik jk Hrow Hik Hjk) as Hne.
  destruct Hvalid as [Hrot _]. fold r0 in Hrot |- *. clearbody r0.
  eexists. split; [done|].
  assert (r0 = 0 ∨ r0 = 1 ∨ r0 = 2 ∨ r0 = 3 ∨ r0 = 4 ∨ r0 = 5) as Hcases by lia.
  unfold polarOrIkShift, crossingShift.
  destruct (_isBaseCellPolarPentagon (h3GetBaseCell cell));
    repeat case_bool_decide;
    try (exfalso; intuition (discriminate || congruence));
    repeat (destruct Hcases as [-> | Hcases]); try subst r0;
    (split; [vm_compute; repeat constructor
            | intros; try discriminate; vm_compute; repeat constructor]).
Qed.

(** X7: when the base cell is classified as a pentagon without being in the
    table, the row is never assigned.  The result is then undefined exactly
    when the row is read: away from the home face of a base cell that is not
    polar, or with leading digit JK or IK.  In all other cases the result is
    defined. *)
Theorem unassigned_row_read cell :
  _isBaseCellPentagon (h3GetBaseCell cell) = true →
  h3GetBaseCell cell ∉ pentagonBaseCells →
  0 ≤ _baseCellToCCWrot60 (h3GetBaseCell cell) (face (_h3ToFaceIjk cell)) < 6 →
  let b := h3GetBaseCell cell in
  let f := face (_h3ToFaceIjk cell) in
  let home := face (_baseCellToFaceIjk b) in
  let digit := _h3LeadingNonZeroDigit cell in
  let read := (f ≠ home ∧ _isBaseCellPolarPentagon b = false) ∨
              digit = JK_AXES_DIGIT ∨ digit = IK_AXES_DIGIT in
  (vertexRotations cell = None ↔ read) ∧
  (¬ read →
   vertexRotations cell =
     Some (if bool_decide (f ≠ home) then (_baseCellToCCWrot60 b f + 1) mod 6
           else _baseCellToCCWrot60 b f)).
Proof.
  intros Hp Hb Hrot b f home digit read. subst read.
  unfold vertexRotations. cbv zeta. rewrite Hp, (scan_is_missing _ Hb).
  unfold polarOrIkRotation, deletedSubsequenceRotation, dirFace.
  subst b f home digit.
  generalize dependent (_baseCellToCCWrot60 (h3GetBaseCell cell)
                          (face (_h3ToFaceIjk cell))).
  generalize (face (_baseCellToFaceIjk (h3GetBaseCell cell))).
  generalize (face (_h3ToFaceIjk cell)).
  generalize (_h3LeadingNonZeroDigit cell).
  generalize (_isBaseCellPolarPentagon (h3GetBaseCell cell)).
  intros polar digit f home r0 Hrot.
  destruct polar; simpl;
    repeat case_bool_decide; simpl;
    try rewrite rotate60_spec by lia; simpl;
    repeat case_bool_decide; simpl;
    unfold JK_AXES_DIGIT, IK_AXES_DIGIT in *;
    (split; [split; intros; try discriminate; try (exfalso; lia);
             intuition (discriminate || lia)
            | intros; first [ done | exfalso; intuition (discriminate || lia) ]]).
Qed.

End Corrections.

(** ** Vertex numbers *)

Section VertexNumbers.

Context `{Collaborators}.

(** X8: the directions are checked before the rotation is computed: a rejected
    direction gives [INVALID_VERTEX_NUM] for every cell, valid or not,
    while an accepted direction inherits an undefined rotation. *)
Theorem rejection_precedes_rotation cell direction :
  (rejected cell direction →
   vertexNumForDirection cell direction = Some INVALID_VERTEX_NUM) ∧
  (¬ rejected cell direction → vertexRotations cell = None →
   vertexNumForDirection cell direction = None).
Proof.
  split.
  - intros Hrej%rejected_guard. unfold vertexNumForDirection. by rewrite Hrej.
  - intros Hacc Hrot. unfold vertexNumForDirection.
    destruct (_ || _ || _) eqn:Hguard.
    + by apply rejected_guard in Hguard.
    + by rewrite Hrot.
Qed.

(** X9: the rotation is counted modulo 6 and applied modulo 5 to a pentagon
    cell: five rotations leave its vertex numbers where no rotation leaves
    them, at the values of [directionToVertexNumPent]. *)
Theorem pentagon_rotation_five_as_zero cell direction :
  h3IsPentagon cell ≠ 0 → direction ∈ pentRing →
  vertexRotations cell = Some 0 ∨ vertexRotations cell = Some 5 →
  vertexNumForDirection cell direction =
    index directionToVertexNumPent (Z.of_N direction).
Proof.
  intros Hpent Hd Hrot.
  assert (∃ r, vertexRotations cell = Some r ∧ (r = 0 ∨ r = 5)) as (r & Hr & Hcases).
  { destruct Hrot; eauto. }
  destruct (vertexNumForDirection_accepted cell direction r) as (v & Hv & Hrange & ->);
    [by apply pentRing_accepted | done | lia |].
  rewrite (truth_true cell Hpent) in Hv, Hrange |- *.
  simpl in *. rewrite Hv. f_equal. unfold NUM_PENT_VERTS in *.
  destruct Hcases as [-> | ->].
  - replace (v + 5 - 0) with (v + 1 * 5) by lia.
    rewrite Z.mod_add by lia. apply Z.mod_small. lia.
  - rewrite Z.add_simpl_r. apply Z.mod_small. lia.
Qed.

(** X10: on a hexagonal cell the directions with complementary digits, which
    point opposite ways, get opposite vertices: their numbers differ by
    three modulo 6, whatever the rotation. *)
Theorem opposite_directions_opposite_vertices cell direction :
  validCell cell → h3IsPentagon cell = 0 → direction ∈ hexRing →
  complementDigit direction ∈ hexRing ∧
  ∃ v w,
    vertexNumForDirection cell direction = Some v ∧
    vertexNumForDirection cell (complementDigit direction) = Some w ∧
    w = (v + 3) mod 6.
Proof.
  intros Hvalid Hhex Hd.
  destruct (vertexRotations_valid cell Hvalid) as (r & Hr & Hrange).
  assert (complementDigit direction ∈ hexRing) as Hd'.
  { unfold hexRing in *.
    repeat (apply elem_of_cons in Hd as [-> | Hd]);
      try (by apply elem_of_nil in Hd); vm_compute; repeat constructor. }
  split; [done|].
  destruct (vertexNumForDirection_accepted cell direction r)
    as (v & Hv & _ & ->); [by apply hexRing_accepted | done | done |].
  destruct (vertexNumForDirection_accepted cell (complementDigit direction) r)
    as (w & Hw & _ & ->); [by apply hexRing_accepted | done | done |].
  rewrite (truth_false cell Hhex) in *. simpl in *.
  eexists _, _. split; [done|]. split; [done|].
  assert (r = 0 ∨ r = 1 ∨ r = 2 ∨ r = 3 ∨ r = 4 ∨ r = 5) as Hcases by lia.
  clear Hd'. unfold hexRing in Hd.
  repeat (apply elem_of_cons in Hd as [-> | Hd]);
    try (by apply elem_of_nil in Hd);
    vm_compute in Hv, Hw; injection Hv as <-; injection Hw as <-;
    repeat (destruct Hcases as [-> | Hcases]); try subst r; reflexivity.
Qed.

End VertexNumbers.

(** X11: the two tables number the vertices alike: the pentagon numbers are the
    hexagon numbers with the vertex of K, number 3, left out and the numbers
    above it moved down by one. *)
Theorem pentagon_numbers_skip_K_vertex (direction : Direction) :
  direction ∈ pentRing →
  index directionToVertexNumHex (Z.of_N K_AXES_DIGIT) = Some 3 ∧
  ∃ h p,
    index directionToVertexNumHex (Z.of_N direction) = Some h ∧
    index directionToVertexNumPent (Z.of_N direction) = Some p ∧
    h ≠ 3 ∧ p = if decide (h < 3) then h else h - 1.
Proof.
  intros Hd. split; [reflexivity|]. unfold pentRing in Hd.
  repeat (apply elem_of_cons in Hd as [-> | Hd]);
    try (by apply elem_of_nil in Hd);
    (eexists _, _; split; [reflexivity|]; split; [reflexivity|]; done).
Qed.

(** ** The further properties on the sample grids *)

Lemma vertexRotations_closed_form_witness :
  ∃ row ikFace jkFace,
    row ∈ pentagonDirectionFaces ∧ baseCell row = 14 ∧
    faces row !! 3%nat = Some ikFace ∧ faces row !! 1%nat = Some jkFace ∧
    vertexRotations (H := pentagonGrid) 0 =
      Some ((3 + polarOrIkShift false 7 6 ikFace
               + crossingShift JK_AXES_DIGIT 7 ikFace jkFace) mod 6).
Proof.
  apply (vertexRotations_closed_form (H := pentagonGrid) 0).
  - sample_valid.
  - reflexivity.
Defined.

Lemma crossing_cancels_ik_turn_witness :
  vertexRotations (H := pentagonGrid) 0 = Some 3.
Proof.
  apply (crossing_cancels_ik_turn (H := pentagonGrid) 0).
  - sample_valid.
  - reflexivity.
  - reflexivity.
  - reflexivity.
  - simpl. lia.
Defined.

Lemma polar_crossing_adds_two_witness :
  vertexRotations (H := polarAwayGrid) 0 = Some 3.
Proof.
  apply (polar_crossing_adds_two (H := polarAwayGrid) 0).
  - sample_valid.
  - reflexivity.
  - reflexivity.
  - reflexivity.
  - reflexivity.
  - simpl. lia.
Defined.

Lemma total_correction_values_witness :
  ∃ r, vertexRotations (H := polarAwayGrid) 0 = Some r ∧
       (r - 1) mod 6 ∈ [0; 1; 2; 5] ∧
       (true = false → (r - 1) mod 6 ∈ [0; 1; 5]).
Proof.
  apply (total_correction_values (H := polarAwayGrid) 0).
  - sample_valid.
  - reflexivity.
Defined.

Lemma unassigned_row_read_witness :
  vertexRotations (H := strayAwayGrid) 0 = None ∧
  vertexRotations (H := strayPentagonGrid) 0 = Some 4.
Proof.
  split.
  - apply (unassigned_row_read (H := strayAwayGrid) 0).
    + reflexivity.
    + by apply (bool_decide_unpack _).
    + simpl. lia.
    + left. split; [simpl; lia | reflexivity].
  - apply (unassigned_row_read (H := strayPentagonGrid) 0).
    + reflexivity.
    + by apply (bool_decide_unpack _).
    + simpl. lia.
    + intros [[Haway _] | [Hd | Hd]]; [by apply Haway | discriminate | discriminate].
Defined.

Lemma rejection_precedes_rotation_witness :
  vertexNumForDirection (H := strayAwayGrid) 0 CENTER_DIGIT = Some INVALID_VERTEX_NUM ∧
  vertexNumForDirection (H := strayAwayGrid) 0 J_AXES_DIGIT = None.
Proof.
  split.
  - apply (rejection_precedes_rotation (H := strayAwayGrid) 0 CENTER_DIGIT).
    by left.
  - apply (rejection_precedes_rotation (H := strayAwayGrid) 0 J_AXES_DIGIT).
    + apply pentRing_accepted. unfold pentRing. repeat constructor.
    + reflexivity.
Defined.

Lemma pentagon_rotation_five_as_zero_witness :
  vertexNumForDirection (H := pentagonFiveGrid) 0 IK_AXES_DIGIT = Some 3.
Proof.
  apply (pentagon_rotation_five_as_zero (H := pentagonFiveGrid) 0 IK_AXES_DIGIT).
  - simpl. lia.
  - unfold pentRing. repeat constructor.
  - right. reflexivity.
Defined.

Lemma opposite_directions_opposite_vertices_witness :
  complementDigit J_AXES_DIGIT ∈ hexRing ∧
  ∃ v w,
    vertexNumForDirection (H := hexagonGrid) 0 J_AXES_DIGIT = Some v ∧
    vertexNumForDirection (H := hexagonGrid) 0 (complementDigit J_AXES_DIGIT) = Some w ∧
    w = (v + 3) mod 6.
Proof.
  apply (opposite_directions_opposite_vertices (H := hexagonGrid) 0 J_AXES_DIGIT).
  - sample_valid.
  - reflexivity.
  - unfold hexRing. repeat constructor.
Defined.

Lemma pentagon_numbers_skip_K_vertex_witness :
  index directionToVertexNumHex (Z.of_N K_AXES_DIGIT) = Some 3 ∧
  ∃ h p,
    index directionToVertexNumHex (Z.of_N I_AXES_DIGIT) = Some h ∧
    index directionToVertexNumPent (Z.of_N I_AXES_DIGIT) = Some p ∧
    h ≠ 3 ∧ p = if decide (h < 3) then h else h - 1.
Proof.
  apply (pentagon_numbers_skip_K_vertex I_AXES_DIGIT).
  unfold pentRing. repeat constructor.
Defined.
